(** * read_bitmap_header: a shallow embedding and its properties

    Source: [sw/utils/read_bitmap_header/read_bitmap_header.cpp].

    The program opens a file through a [std::ifstream], reads
    [sizeof(BitmapFileHeader)] = 14 bytes into a packed struct living on the
    stack, compares the [bfType] field with [0x4D42] and prints either a
    diagnostic on [std::cerr] or two fields on [std::cout].

    Modelling choices:
    - integers are [Z] with their width written out, bytes are [Byte.byte];
    - the target is little-endian (the struct is filled by a raw byte copy,
      so the field values are the little-endian reading of the bytes);
    - the process environment (file system, table of open handles, the two
      console streams and a log of stream operations) is one record [World]
      threaded through a small state monad [IO];
    - [BitmapFileHeader header;] has no initialiser: its 14 bytes are
      whatever the stack held.  Those bytes are an explicit argument
      ([stack]) of [readBmpHeader], so the function stays executable and
      every dependence on them is visible in the statements. *)

From Stdlib Require Import ZArith Lia Strings.Byte Ascii String DecimalString.
From Stdlib Require Import DecimalPos DecimalN.
From stdpp Require Import gmap strings list fin_maps.

Local Open Scope Z_scope.

(** ** Bytes and little-endian loads *)

Definition byte_val (b : byte) : Z := Z.of_N (Byte.to_N b).

(** [load_le bs]: the unsigned integer whose little-endian image is [bs]
    (what a raw copy of [bs] into a [uintN_t] yields on the target). *)
Fixpoint load_le (bs : list byte) : Z :=
  match bs with
  | [] => 0
  | b :: rest => Z.lor (byte_val b) (Z.shiftl (load_le rest) 8)
  end.

(** Bytes [off .. off+width-1] of a memory image. *)
Definition slice (off width : nat) (mem : list byte) : list byte :=
  take width (drop off mem).

(** ** The packed struct (source lines 8-14) *)

Record BitmapFileHeader := mkHeader {
  bfType : Z;        (* uint16_t *)
  bfSize : Z;        (* uint32_t *)
  bfReserved1 : Z;   (* uint16_t *)
  bfReserved2 : Z;   (* uint16_t *)
  bfOffBits : Z      (* uint32_t *)
}.

(** Field widths in bytes, in declaration order; [packed] means there is no
    padding, so each field starts where the previous one ends. *)
Definition sizeof_uint16 : nat := 2.
Definition sizeof_uint32 : nat := 4.

Definition off_bfType : nat := 0.
Definition off_bfSize : nat := off_bfType + sizeof_uint16.
Definition off_bfReserved1 : nat := off_bfSize + sizeof_uint32.
Definition off_bfReserved2 : nat := off_bfReserved1 + sizeof_uint16.
Definition off_bfOffBits : nat := off_bfReserved2 + sizeof_uint16.
Definition sizeof_header : nat := off_bfOffBits + sizeof_uint32.

(** The struct value denoted by the 14 bytes of its storage. *)
Definition header_of_bytes (mem : list byte) : BitmapFileHeader :=
  {| bfType := load_le (slice off_bfType sizeof_uint16 mem);
     bfSize := load_le (slice off_bfSize sizeof_uint32 mem);
     bfReserved1 := load_le (slice off_bfReserved1 sizeof_uint16 mem);
     bfReserved2 := load_le (slice off_bfReserved2 sizeof_uint16 mem);
     bfOffBits := load_le (slice off_bfOffBits sizeof_uint32 mem) |}.

(** ** The environment *)

Record file := mkFile {
  readable : bool;          (* may the process open it for reading? *)
  content : list byte
}.

(** Operations performed on file streams, in program order. *)
Inductive event :=
  | EvOpen (path : string) (handle : option nat)
  | EvRead (handle : nat) (requested got : nat)
  | EvClose (handle : nat).

Record World := mkWorld {
  fs : gmap string file;          (* path -> file *)
  handles : gmap nat string;      (* open handle -> path *)
  cout : string;
  cerr : string;
  trace : list event
}.

(** ** A state monad over [World] *)

Definition IO (A : Type) : Type := World -> A * World.

Global Instance io_ret : MRet IO := fun A (a : A) w => (a, w).
Global Instance io_bind : MBind IO :=
  fun A B (k : A -> IO B) (m : IO A) w => let (a, w') := m w in k a w'.

Definition exec {A} (m : IO A) (w : World) : World := snd (m w).
Definition eval {A} (m : IO A) (w : World) : A := fst (m w).

(** Field updates of [World]. *)
Definition set_handles (hs : gmap nat string) (w : World) : World :=
  {| fs := fs w; handles := hs; cout := cout w; cerr := cerr w;
     trace := trace w |}.
Definition log (e : event) (w : World) : World :=
  {| fs := fs w; handles := handles w; cout := cout w; cerr := cerr w;
     trace := trace w ++ [e] |}.

(** ** Console streams *)

(** [std::cout << t] and [std::cerr << t] append to the stream. *)
Definition cout_put (t : string) : IO unit := fun w =>
  (tt, {| fs := fs w; handles := handles w; cout := cout w +:+ t;
          cerr := cerr w; trace := trace w |}).
Definition cerr_put (t : string) : IO unit := fun w =>
  (tt, {| fs := fs w; handles := handles w; cout := cout w;
          cerr := cerr w +:+ t; trace := trace w |}).

(** [std::endl] writes a newline (and flushes, which the model does not
    observe). *)
Definition endl : string := String "010"%char EmptyString.

(** [operator<<] on an unsigned integer: decimal digits, no padding. *)
Definition show_uint (z : Z) : string :=
  NilZero.string_of_uint (N.to_uint (Z.to_N z)).

(** ** [std::ifstream] *)

Record ifstream := mkStream {
  handle : option nat;   (* the open file, if any *)
  pos : nat;             (* read position *)
  failbit : bool;
  eofbit : bool;
  gcount : nat           (* bytes extracted by the last read *)
}.

Definition is_open (s : ifstream) : bool :=
  match handle s with Some _ => true | None => false end.

(** [std::ifstream file(filename, std::ios::binary)]: opens for reading,
    positioned at offset 0; on failure the stream is not open and
    [failbit] is set. *)
Definition ifstream_ctor (filename : string) : IO ifstream := fun w =>
  let failed :=
    (mkStream None 0 true false 0, log (EvOpen filename None) w) in
  match fs w !! filename with
  | Some f =>
      if readable f then
        let h := fresh (dom (handles w)) in
        (mkStream (Some h) 0 false false 0,
         log (EvOpen filename (Some h))
             (set_handles (<[h := filename]> (handles w)) w))
      else failed
  | None => failed
  end.

(** The bytes of the file behind a handle. *)
Definition file_bytes (w : World) (h : nat) : list byte :=
  match handles w !! h ≫= (fs w !!.) with
  | Some f => content f
  | None => []
  end.

(** [file.read(buf, n)]: extracts up to [n] bytes and stores them in the
    first cells of [buf]; the cells past the bytes extracted keep what they
    held.  When the end of the file comes first, [failbit] and [eofbit] are
    set and [gcount] tells how many bytes were stored.  On a stream that is
    not good nothing is extracted. *)
Definition ifstream_read (s : ifstream) (buf : list byte) (n : nat)
  : IO (ifstream * list byte) := fun w =>
  match handle s with
  | Some h =>
      if failbit s || eofbit s then
        ((mkStream (handle s) (pos s) true (eofbit s) 0, buf), w)
      else
        let got := take n (drop (pos s) (file_bytes w h)) in
        let k := length got in
        let short := (k <? n)%nat in
        ((mkStream (Some h) (pos s + k) short short k, got ++ drop k buf),
         log (EvRead h n k) w)
  | None => ((mkStream None (pos s) true (eofbit s) 0, buf), w)
  end.

(** [file.close()]: releases the handle; fails on a stream that is not
    open. *)
Definition ifstream_close (s : ifstream) : IO ifstream := fun w =>
  match handle s with
  | Some h =>
      (mkStream None (pos s) (failbit s) (eofbit s) (gcount s),
       log (EvClose h) (set_handles (delete h (handles w)) w))
  | None => (mkStream None (pos s) true (eofbit s) (gcount s), w)
  end.

(** Destructor, run when [file] goes out of scope: closes the file if it
    is still open. *)
Definition ifstream_dtor (s : ifstream) : IO unit := fun w =>
  match handle s with
  | Some h => (tt, log (EvClose h) (set_handles (delete h (handles w)) w))
  | None => (tt, w)
  end.

(** ** The program (source lines 16-44) *)

(** Storage of a local declared without initialiser: [n] bytes of whatever
    the stack held, [residue i] being the byte at offset [i]. *)
Definition uninitialised (residue : nat -> byte) (n : nat) : list byte :=
  residue <$> seq 0 n.

Definition readBmpHeader (residue : nat -> byte) (filename : string)
  : IO unit :=
  file ← ifstream_ctor filename;
  if negb (is_open file) then
    cerr_put "Error: Could not open file ";; cerr_put filename;;
    cerr_put endl;;
    ifstream_dtor file
  else
    let header_mem := uninitialised residue sizeof_header in
    '(file, header_mem) ← ifstream_read file header_mem sizeof_header;
    let header := header_of_bytes header_mem in
    if bool_decide (bfType header ≠ 0x4D42) then
      cerr_put "Error: Not a valid BMP file.";; cerr_put endl;;
      file ← ifstream_close file;
      ifstream_dtor file
    else
      cout_put "File size: ";; cout_put (show_uint (bfSize header));;
      cout_put " bytes";; cout_put endl;;
      cout_put "Header size (offset to pixel data): ";;
      cout_put (show_uint (bfOffBits header));;
      cout_put " bytes";; cout_put endl;;
      file ← ifstream_close file;
      ifstream_dtor file.

Definition main (residue : nat -> byte) : IO Z :=
  readBmpHeader residue "../../../data/images/test_10x10.bmp";;
  mret 0.

(** ** Vocabulary used in the statements *)

(** Little-endian unsigned readings of two and four bytes, written as the
    positional sums of the file format. *)
Definition le_uint16 (b0 b1 : byte) : Z :=
  byte_val b0 + 2 ^ 8 * byte_val b1.
Definition le_uint32 (b0 b1 b2 b3 : byte) : Z :=
  byte_val b0 + 2 ^ 8 * byte_val b1 + 2 ^ 16 * byte_val b2
  + 2 ^ 24 * byte_val b3.

(** Does opening [path] for reading succeed in [w]? *)
Definition openable (w : World) (path : string) : bool :=
  match fs w !! path with
  | Some f => readable f
  | None => false
  end.

(** The storage of [header] after the read: the bytes the file delivered,
    followed by the cells the read did not reach. *)
Definition header_storage (residue : nat -> byte) (c : list byte)
  : list byte :=
  take sizeof_header c
  ++ drop (length (take sizeof_header c)) (uninitialised residue sizeof_header).

(** The console texts. *)
Definition msg_open_failed (path : string) : string :=
  "Error: Could not open file " +:+ path +:+ endl.
Definition msg_invalid : string := "Error: Not a valid BMP file." +:+ endl.
Definition line_file_size (n : Z) : string :=
  "File size: " +:+ show_uint n +:+ " bytes".
Definition line_header_size (n : Z) : string :=
  "Header size (offset to pixel data): " +:+ show_uint n +:+ " bytes".

Fixpoint count_newlines (s : string) : nat :=
  match s with
  | EmptyString => 0%nat
  | String c rest =>
      ((if Ascii.eqb c "010" then 1 else 0) + count_newlines rest)%nat
  end.

(** Two invocations in a row, [w0 -> w1 -> w2], wrote the same text. *)
Definition same_output (w0 w1 w2 : World) : Prop :=
  ∃ out err : string,
    cout w1 = cout w0 +:+ out ∧ cerr w1 = cerr w0 +:+ err ∧
    cout w2 = cout w1 +:+ out ∧ cerr w2 = cerr w1 +:+ err.

(** The world after a run that opened [path], got [got] bytes from its
    read, wrote [out] and [err] and closed the file: same files, same
    handle table, one open, one read and one close in the log. *)
Definition after_run (w : World) (path : string) (got : nat)
    (out err : string) : World :=
  let h := fresh (dom (handles w)) in
  {| fs := fs w; handles := handles w;
     cout := cout w +:+ out; cerr := cerr w +:+ err;
     trace := trace w ++ [EvOpen path (Some h);
                          EvRead h sizeof_header got; EvClose h] |}.

(** The two lines of a successful report. *)
Definition report (hd : BitmapFileHeader) : string :=
  line_file_size (bfSize hd) +:+ endl
  +:+ line_header_size (bfOffBits hd) +:+ endl.

(** What one run writes on (cout, cerr), given the header storage it
    started from and the directory entry of the path. *)
Definition response (residue : nat -> byte) (path : string)
    (entry : option file) : string * string :=
  match entry with
  | Some f =>
      if readable f then
        let hd := header_of_bytes (header_storage residue (content f)) in
        if bool_decide (bfType hd ≠ 0x4D42) then (""%string, msg_invalid)
        else (report hd, ""%string)
      else (""%string, msg_open_failed path)
  | None => (""%string, msg_open_failed path)
  end.

(** Sample data: the 14-byte header of the specification's scenario, a
    world holding it under a name, next to an empty file. *)
Definition sample_header : list byte :=
  [x42; x4d; x46; x00; x00; x00; x00; x00; x00; x00; x36; x00; x00; x00].

Definition sample_world : World :=
  {| fs := {[ "ok.bmp"%string := mkFile true (sample_header ++ [xff; xff]);
              "empty.bmp"%string := mkFile true [];
              "short.bmp"%string := mkFile true [x42; x4d; x46];
              "text.txt"%string := mkFile true [x00; x00; x61; x62];
              "locked.bmp"%string := mkFile false sample_header ]};
     handles := ∅; cout := ""; cerr := ""; trace := [] |}.

(** Two possible stack contents: all zero, and the bytes a previous
    activation left when it held a valid header. *)
Definition residue_zero : nat -> byte := fun _ => x00.
Definition residue_bmp : nat -> byte := fun i => nth i sample_header x00.

(** Truncated files: a valid signature followed by fewer than 14 bytes,
    and a file of one byte. *)
Definition truncated_world : World :=
  {| fs := {[ "cut.bmp"%string :=
                mkFile true [x42; x4d; x9a; x02; x00; x00; x00; x00; x00];
              "one.bin"%string := mkFile true [x42] ]};
     handles := {[ 0%nat := "other.dat"%string ]};
     cout := "log: "; cerr := ""; trace := [] |}.

(** The path compiled into [main]. *)
Definition main_path : string := "../../../data/images/test_10x10.bmp".

(** Is the text made of decimal digits only? *)
Definition is_digit (c : ascii) : bool :=
  let n := N_of_ascii c in ((48 <=? n) && (n <=? 57))%N.
Fixpoint all_digits (s : string) : bool :=
  match s with
  | EmptyString => true
  | String c rest => is_digit c && all_digits rest
  end.

(** * Properties *)

(** ** Strings and bytes *)

Lemma append_assoc (a b c : string) : (a +:+ b) +:+ c = a +:+ (b +:+ c).
Proof.
  induction a as [|ch a IH]; [reflexivity|].
  change (String ch ((a +:+ b) +:+ c) = String ch (a +:+ (b +:+ c))).
  by rewrite IH.
Qed.

Lemma append_nil_r (a : string) : a +:+ "" = a.
Proof.
  induction a as [|ch a IH]; [reflexivity|].
  change (String ch (a +:+ "") = String ch a). by rewrite IH.
Qed.

Lemma byte_val_range (b : byte) : 0 ≤ byte_val b < 2 ^ 8.
Proof.
  unfold byte_val. pose proof (Byte.to_N_bounded b) as Hb.
  change (2 ^ 8) with 256. lia.
Qed.

(** On disjoint bit ranges [lor] is addition. *)
Lemma lor_shiftl_8 (a x : Z) :
  0 ≤ a < 2 ^ 8 → Z.lor a (Z.shiftl x 8) = a + 2 ^ 8 * x.
Proof.
  intros Ha.
  pose proof (Z.add_lor_land a (Z.shiftl x 8)) as Hsum.
  assert (Z.land a (Z.shiftl x 8) = 0) as Hland.
  { apply Z.bits_inj'. intros n Hn.
    rewrite Z.land_spec, Z.bits_0.
    destruct (Z.lt_ge_cases n 8) as [Hlt|Hge].
    - rewrite (Z.shiftl_spec_low x 8 n Hlt). apply andb_false_r.
    - rewrite <- (Z.mod_small a (2 ^ 8)) by lia.
      rewrite Z.mod_pow2_bits_high by lia. reflexivity. }
  rewrite Hland in Hsum. rewrite Z.shiftl_mul_pow2 in * by lia.
  change (2 ^ 8) with 256 in *. lia.
Qed.

Lemma load_le_nonneg (bs : list byte) : 0 ≤ load_le bs.
Proof.
  induction bs as [|b bs IH]; simpl; [lia|].
  rewrite lor_shiftl_8 by apply byte_val_range.
  pose proof (byte_val_range b). change (2 ^ 8) with 256 in *. lia.
Qed.

Lemma load_le_2 (b0 b1 : byte) : load_le [b0; b1] = le_uint16 b0 b1.
Proof.
  unfold le_uint16. simpl.
  rewrite Z.shiftl_0_l, Z.lor_0_r.
  by rewrite lor_shiftl_8 by apply byte_val_range.
Qed.

Lemma load_le_4 (b0 b1 b2 b3 : byte) :
  load_le [b0; b1; b2; b3] = le_uint32 b0 b1 b2 b3.
Proof.
  unfold le_uint32. simpl.
  rewrite Z.shiftl_0_l, Z.lor_0_r.
  pose proof (byte_val_range b2). pose proof (byte_val_range b3).
  rewrite (lor_shiftl_8 (byte_val b2)) by apply byte_val_range.
  rewrite (lor_shiftl_8 (byte_val b1)) by apply byte_val_range.
  rewrite (lor_shiftl_8 (byte_val b0)) by apply byte_val_range.
  change (2 ^ 8) with 256. change (2 ^ 16) with 65536.
  change (2 ^ 24) with 16777216. lia.
Qed.

(** ** What one run does *)

(** Open fails: one diagnostic, and the run is over. *)
Lemma readBmpHeader_not_openable residue path w :
  openable w path = false →
  readBmpHeader residue path w =
    (tt, {| fs := fs w; handles := handles w; cout := cout w;
            cerr := cerr w +:+ msg_open_failed path;
            trace := trace w ++ [EvOpen path None] |}).
Proof.
  unfold openable. intros Hopen.
  assert (ifstream_ctor path w =
          (mkStream None 0 true false 0, log (EvOpen path None) w)) as Hctor.
  { unfold ifstream_ctor. destruct (fs w !! path) as [f|]; [|done].
    by rewrite Hopen. }
  unfold readBmpHeader, mbind, io_bind. rewrite Hctor. simpl.
  unfold msg_open_failed. by rewrite !append_assoc.
Qed.

(** Open succeeds: the branch taken and the text written are a function of
    the header storage after the read. *)
Lemma readBmpHeader_opened residue path w f :
  fs w !! path = Some f → readable f = true →
  readBmpHeader residue path w =
    (tt,
     let hd := header_of_bytes (header_storage residue (content f)) in
     let got := length (take sizeof_header (content f)) in
     if bool_decide (bfType hd ≠ 0x4D42)
     then after_run w path got "" msg_invalid
     else after_run w path got (report hd) "").
Proof.
  intros Hf Hr.
  unfold readBmpHeader, mbind, io_bind, ifstream_ctor.
  rewrite Hf, Hr. cbn [is_open handle negb].
  set (h := fresh (dom (handles w))).
  assert (handles w !! h = None) as Hfresh
    by apply not_elem_of_dom, is_fresh.
  unfold ifstream_read. cbn [handle failbit eofbit orb pos].
  unfold file_bytes. cbn [log set_handles handles fs].
  rewrite lookup_insert_eq. cbn [mbind option_bind]. rewrite Hf.
  rewrite !drop_0. fold (header_storage residue (content f)).
  set (hd := header_of_bytes (header_storage residue (content f))).
  unfold after_run, report, line_file_size, line_header_size, msg_invalid.
  fold h. cbv zeta.
  destruct (bool_decide (bfType hd ≠ 19778));
    cbn [cerr_put cout_put ifstream_close ifstream_dtor handle handles log
         set_handles fs cout cerr trace];
    rewrite delete_insert_id by done;
    unfold log, set_handles; cbn [fs handles cout cerr trace];
    rewrite <- ?app_assoc, ?append_assoc, ?append_nil_r; reflexivity.
Qed.

(** With at least 14 bytes in the file the read fills the whole storage. *)
Lemma header_storage_full residue (c : list byte) :
  (sizeof_header ≤ length c)%nat →
  header_storage residue c = take sizeof_header c.
Proof.
  intros Hlen. unfold header_storage.
  rewrite length_take, Nat.min_l by done.
  change (drop sizeof_header (uninitialised residue sizeof_header)) with (@nil byte).
  apply app_nil_r.
Qed.

(** The struct the code sees when the file starts with 14 bytes: every
    field is the little-endian reading of its own bytes. *)
Lemma header_of_full_file residue b0 b1 b2 b3 b4 b5 b6 b7 b8 b9 b10 b11 b12 b13
    (rest : list byte) :
  header_of_bytes
    (header_storage residue
       ([b0; b1; b2; b3; b4; b5; b6; b7; b8; b9; b10; b11; b12; b13] ++ rest))
  = {| bfType := le_uint16 b0 b1;
       bfSize := le_uint32 b2 b3 b4 b5;
       bfReserved1 := le_uint16 b6 b7;
       bfReserved2 := le_uint16 b8 b9;
       bfOffBits := le_uint32 b10 b11 b12 b13 |}.
Proof.
  rewrite <- !load_le_2, <- !load_le_4. reflexivity.
Qed.

(** Two bytes are enough to fix [bfType], whatever follows. *)
Lemma bfType_of_two_bytes residue b0 b1 (rest : list byte) :
  bfType (header_of_bytes (header_storage residue (b0 :: b1 :: rest)))
  = le_uint16 b0 b1.
Proof. rewrite <- load_le_2. reflexivity. Qed.

Lemma le_uint32_range b0 b1 b2 b3 : 0 ≤ le_uint32 b0 b1 b2 b3 < 2 ^ 32.
Proof.
  unfold le_uint32.
  pose proof (byte_val_range b0). pose proof (byte_val_range b1).
  pose proof (byte_val_range b2). pose proof (byte_val_range b3).
  change (2 ^ 8) with 256 in *. change (2 ^ 16) with 65536.
  change (2 ^ 24) with 16777216. change (2 ^ 32) with 4294967296. lia.
Qed.

(** The signature test in terms of the two bytes themselves. *)
Lemma le_uint16_magic b0 b1 :
  le_uint16 b0 b1 = 0x4D42 ↔ b0 = x42 ∧ b1 = x4d.
Proof.
  split.
  - unfold le_uint16. intros Hsig.
    pose proof (byte_val_range b0) as R0.
    pose proof (byte_val_range b1) as R1.
    change (2 ^ 8) with 256 in *.
    assert (byte_val b0 = byte_val x42 ∧ byte_val b1 = byte_val x4d)
      as [E0 E1] by (change (byte_val x42) with 66;
                     change (byte_val x4d) with 77; lia).
    apply N2Z.inj in E0, E1.
    split; apply (inj Some); rewrite <- Byte.of_to_N;
      [rewrite E0|rewrite E1]; apply Byte.of_to_N.
  - by intros [-> ->].
Qed.

(** ** Lines of text *)

Lemma count_newlines_append (a b : string) :
  count_newlines (a +:+ b) = (count_newlines a + count_newlines b)%nat.
Proof.
  induction a as [|c a IH]; [reflexivity|].
  change (String c a +:+ b) with (String c (a +:+ b)).
  cbn [count_newlines]. rewrite IH. lia.
Qed.

Lemma count_newlines_show_uint (z : Z) : count_newlines (show_uint z) = 0%nat.
Proof.
  unfold show_uint, NilZero.string_of_uint.
  assert (∀ d, count_newlines (NilEmpty.string_of_uint d) = 0%nat) as Hd
    by (induction d; simpl; auto).
  destruct (N.to_uint (Z.to_N z)); apply Hd || reflexivity.
Qed.

(** ** Frame and console summary of a run *)

Lemma readBmpHeader_summary residue path w :
  let w' := exec (readBmpHeader residue path) w in
  let r := response residue path (fs w !! path) in
  fs w' = fs w ∧ handles w' = handles w
  ∧ cout w' = cout w +:+ r.1 ∧ cerr w' = cerr w +:+ r.2.
Proof.
  cbv zeta. unfold exec, response.
  destruct (fs w !! path) as [f|] eqn:Hf;
    [destruct (readable f) eqn:Hr|].
  - rewrite (readBmpHeader_opened _ _ _ f Hf Hr). cbv zeta.
    destruct (bool_decide _); unfold after_run; cbn [snd fst fs handles cout cerr];
      by rewrite append_nil_r.
  - rewrite readBmpHeader_not_openable by (unfold openable; by rewrite Hf).
    cbn [snd fst fs handles cout cerr]. by rewrite append_nil_r.
  - rewrite readBmpHeader_not_openable by (unfold openable; by rewrite Hf).
    cbn [snd fst fs handles cout cerr]. by rewrite append_nil_r.
Qed.

(** Two runs in a row write the same text as soon as the response does not
    depend on the header storage the two activations started from. *)
Lemma same_output_of_response r1 r2 path w :
  response r1 path (fs w !! path) = response r2 path (fs w !! path) →
  let w1 := exec (readBmpHeader r1 path) w in
  let w2 := exec (readBmpHeader r2 path) w1 in
  same_output w w1 w2.
Proof.
  intros Hresp w1 w2.
  destruct (readBmpHeader_summary r1 path w) as (Hfs & _ & Ho1 & He1).
  destruct (readBmpHeader_summary r2 path w1) as (_ & _ & Ho2 & He2).
  fold w1 in Hfs, Ho1, He1. fold w2 in Ho2, He2.
  rewrite Hfs, <- Hresp in Ho2, He2.
  by exists (response r1 path (fs w !! path)).1,
            (response r1 path (fs w !! path)).2.
Qed.

(** A full header, or a failed open, leaves no room for the storage's
    former content. *)
Lemma response_full_header r1 r2 path (f : file) :
  (sizeof_header ≤ length (content f))%nat →
  response r1 path (Some f) = response r2 path (Some f).
Proof.
  intros Hlen. unfold response. by rewrite !header_storage_full.
Qed.

Lemma response_not_openable r1 r2 path w :
  openable w path = false →
  response r1 path (fs w !! path) = response r2 path (fs w !! path).
Proof.
  unfold openable, response. destruct (fs w !! path) as [f|]; [|done].
  by intros ->.
Qed.

(** ** The claims *)

(** C1. For a file of at least 14 bytes whose first two bytes read as the
    little-endian 16-bit value 0x4D42, [readBmpHeader] prints the
    little-endian unsigned 32-bit readings of bytes 2-5 (file size) and of
    bytes 10-13 (pixel-data offset), both below 2^32, and nothing on the
    error stream.  In particular a file beginning with
    42 4D 46 00 00 00 00 00 00 00 36 00 00 00 gives 70 and 54. *)
Theorem readBmpHeader_reports_encoded_fields
    residue path w f b0 b1 b2 b3 b4 b5 b6 b7 b8 b9 b10 b11 b12 b13 rest :
  fs w !! path = Some f →
  readable f = true →
  content f =
    [b0; b1; b2; b3; b4; b5; b6; b7; b8; b9; b10; b11; b12; b13] ++ rest →
  le_uint16 b0 b1 = 0x4D42 →
  let w' := exec (readBmpHeader residue path) w in
  (cout w' =
     cout w +:+ "File size: " +:+ show_uint (le_uint32 b2 b3 b4 b5)
     +:+ " bytes" +:+ endl +:+ "Header size (offset to pixel data): "
     +:+ show_uint (le_uint32 b10 b11 b12 b13) +:+ " bytes" +:+ endl)
  ∧ cerr w' = cerr w
  ∧ 0 ≤ le_uint32 b2 b3 b4 b5 < 2 ^ 32
  ∧ 0 ≤ le_uint32 b10 b11 b12 b13 < 2 ^ 32
  ∧ ([b0; b1; b2; b3; b4; b5; b6; b7; b8; b9; b10; b11; b12; b13]
       = sample_header →
     cout w' =
       cout w +:+ "File size: 70 bytes" +:+ endl
       +:+ "Header size (offset to pixel data): 54 bytes" +:+ endl).
Proof.
  intros Hf Hr Hc Hsig w'.
  assert (w' = after_run w path sizeof_header
                 (report {| bfType := le_uint16 b0 b1;
                            bfSize := le_uint32 b2 b3 b4 b5;
                            bfReserved1 := le_uint16 b6 b7;
                            bfReserved2 := le_uint16 b8 b9;
                            bfOffBits := le_uint32 b10 b11 b12 b13 |}) "")
    as Hw'.
  { subst w'. unfold exec. rewrite (readBmpHeader_opened _ _ _ f Hf Hr).
    destruct f as [rd c]. cbn [content] in *. subst c.
    cbv zeta. rewrite header_of_full_file.
    cbn [bfType snd]. by rewrite bool_decide_eq_false_2 by (by intros []). }
  assert (cout w' =
     cout w +:+ "File size: " +:+ show_uint (le_uint32 b2 b3 b4 b5)
     +:+ " bytes" +:+ endl +:+ "Header size (offset to pixel data): "
     +:+ show_uint (le_uint32 b10 b11 b12 b13) +:+ " bytes" +:+ endl)
    as Hout.
  { rewrite Hw'. unfold after_run, report, line_file_size, line_header_size.
    cbn [cout bfSize bfOffBits]. by rewrite !append_assoc. }
  split_and!; [exact Hout | | apply le_uint32_range.. | ].
  - rewrite Hw'. unfold after_run. cbn [cerr]. apply append_nil_r.
  - intros Hs. rewrite Hout. unfold sample_header in Hs.
    by simplify_eq.
Qed.

Lemma readBmpHeader_reports_encoded_fields_witness :
  cout (exec (readBmpHeader residue_zero "ok.bmp") sample_world)
  = "File size: 70 bytes" +:+ endl
    +:+ "Header size (offset to pixel data): 54 bytes" +:+ endl.
Proof.
  destruct (readBmpHeader_reports_encoded_fields residue_zero "ok.bmp"
              sample_world (mkFile true (sample_header ++ [xff; xff]))
              x42 x4d x46 x00 x00 x00 x00 x00 x00 x00 x36 x00 x00 x00
              [xff; xff])
    as (_ & _ & _ & _ & Hsample);
    [reflexivity | reflexivity | reflexivity | reflexivity | ].
  exact (Hsample eq_refl).
Defined.

(** C5. On a successful run (the file opens, holds at least 14 bytes and
    its signature field equals 0x4D42) the output stream receives exactly
    two lines, first [File size: <bfSize> bytes], then
    [Header size (offset to pixel data): <bfOffBits> bytes], each ended by
    a newline and holding none inside, and the error stream receives
    nothing. *)
Theorem readBmpHeader_success_output residue path w f :
  fs w !! path = Some f →
  readable f = true →
  (sizeof_header ≤ length (content f))%nat →
  bfType (header_of_bytes (take sizeof_header (content f))) = 0x4D42 →
  let header := header_of_bytes (take sizeof_header (content f)) in
  let line1 := "File size: " +:+ show_uint (bfSize header) +:+ " bytes" in
  let line2 :=
    "Header size (offset to pixel data): "
    +:+ show_uint (bfOffBits header) +:+ " bytes" in
  let w' := exec (readBmpHeader residue path) w in
  cout w' = cout w +:+ line1 +:+ endl +:+ line2 +:+ endl
  ∧ count_newlines line1 = 0%nat
  ∧ count_newlines line2 = 0%nat
  ∧ cerr w' = cerr w.
Proof.
  intros Hf Hr Hlen Hsig header line1 line2 w'.
  subst w'. unfold exec. rewrite (readBmpHeader_opened _ _ _ f Hf Hr).
  cbv zeta. rewrite header_storage_full by done. fold header.
  rewrite bool_decide_eq_false_2 by (by intros []).
  unfold after_run, report. cbn [snd cout cerr].
  split_and!.
  - reflexivity.
  - subst line1. by rewrite !count_newlines_append, count_newlines_show_uint.
  - subst line2. by rewrite !count_newlines_append, count_newlines_show_uint.
  - apply append_nil_r.
Qed.

Lemma readBmpHeader_success_output_witness :
  cout (exec (readBmpHeader residue_zero "ok.bmp") sample_world)
  = "File size: 70 bytes" +:+ endl
    +:+ "Header size (offset to pixel data): 54 bytes" +:+ endl
  ∧ cerr (exec (readBmpHeader residue_zero "ok.bmp") sample_world) = "".
Proof.
  destruct (readBmpHeader_success_output residue_zero "ok.bmp" sample_world
              (mkFile true (sample_header ++ [xff; xff])))
    as (Hout & _ & _ & Herr);
    [reflexivity | reflexivity | vm_compute; lia | reflexivity | ].
  split; [exact Hout | exact Herr].
Defined.

(** C2. For a file that opens and whose first two bytes, read as a
    little-endian 16-bit value, differ from 0x4D42, [readBmpHeader] writes
    the line [Error: Not a valid BMP file.] on the error stream and
    nothing on the output stream. *)
Theorem readBmpHeader_invalid_signature residue path w f b0 b1 rest :
  fs w !! path = Some f →
  readable f = true →
  content f = b0 :: b1 :: rest →
  le_uint16 b0 b1 ≠ 0x4D42 →
  let w' := exec (readBmpHeader residue path) w in
  cerr w' = cerr w +:+ "Error: Not a valid BMP file." +:+ endl
  ∧ cout w' = cout w.
Proof.
  intros Hf Hr Hc Hsig w'.
  subst w'. unfold exec. rewrite (readBmpHeader_opened _ _ _ f Hf Hr).
  destruct f as [rd c]. cbn [content] in *. subst c.
  cbv zeta. rewrite bfType_of_two_bytes.
  rewrite bool_decide_eq_true_2 by done.
  unfold after_run. cbn [snd cout cerr].
  split; [reflexivity | apply append_nil_r].
Qed.

Lemma readBmpHeader_invalid_signature_witness :
  cerr (exec (readBmpHeader residue_bmp "text.txt") sample_world)
  = "Error: Not a valid BMP file." +:+ endl
  ∧ cout (exec (readBmpHeader residue_bmp "text.txt") sample_world) = "".
Proof.
  apply (readBmpHeader_invalid_signature residue_bmp "text.txt" sample_world
           (mkFile true [x00; x00; x61; x62]) x00 x00 [x61; x62]);
    [reflexivity | reflexivity | reflexivity | vm_compute; discriminate].
Defined.

(** C3. When the file cannot be opened for reading (no such path, or no
    permission), [readBmpHeader] writes [Error: Could not open file <path>]
    on the error stream and stops: the only stream operation is the failed
    open (no read, no close), the output stream and the handle table are
    untouched, and the run does not depend on the header storage. *)
Theorem readBmpHeader_open_failure residue path w :
  openable w path = false →
  let w' := exec (readBmpHeader residue path) w in
  cerr w' = cerr w +:+ "Error: Could not open file " +:+ path +:+ endl
  ∧ cout w' = cout w
  ∧ trace w' = trace w ++ [EvOpen path None]
  ∧ handles w' = handles w
  ∧ ∀ residue', readBmpHeader residue' path w = readBmpHeader residue path w.
Proof.
  intros Hopen w'. subst w'. unfold exec.
  rewrite (readBmpHeader_not_openable _ _ _ Hopen).
  split_and!; try reflexivity.
  intros residue'. by rewrite !(readBmpHeader_not_openable _ _ _ Hopen).
Qed.

Lemma readBmpHeader_open_failure_witness :
  cerr (exec (readBmpHeader residue_bmp "missing.bmp") sample_world)
  = "Error: Could not open file missing.bmp" +:+ endl
  ∧ trace (exec (readBmpHeader residue_bmp "missing.bmp") sample_world)
    = [EvOpen "missing.bmp" None].
Proof.
  destruct (readBmpHeader_open_failure residue_bmp "missing.bmp" sample_world)
    as (Herr & _ & Htrace & _); [reflexivity | ].
  split; [exact Herr | exact Htrace].
Defined.

(** C6. Whatever the file system holds (the sample image present, absent,
    unreadable, or not a bitmap) and whatever the stack held, [main]
    returns exit status zero. *)
Theorem main_exit_status_zero residue w : eval (main residue) w = 0.
Proof.
  unfold eval, main, mbind, io_bind, mret, io_ret.
  by destruct (readBmpHeader residue _ w).
Qed.

(** C8. No run of [readBmpHeader] changes the file system: after it, every
    path holds what it held before (nothing created, written or deleted),
    whichever way the run ended. *)
Theorem readBmpHeader_no_fs_mutation residue path w :
  fs (exec (readBmpHeader residue path) w) = fs w
  ∧ ∀ p, fs (exec (readBmpHeader residue path) w) !! p = fs w !! p.
Proof.
  destruct (readBmpHeader_summary residue path w) as (Hfs & _).
  split; [exact Hfs | intros p; by rewrite Hfs].
Qed.

(** C9. Every run of [readBmpHeader] that opens the file releases the
    handle before it returns: the handle [h] obtained by the open is new,
    the log of the run is open, one read, close of [h], and on return [h]
    is not in the table of open handles, which is back to what it was.
    This covers the report, the invalid-signature and the short-read
    paths alike. *)
Theorem readBmpHeader_releases_handle residue path w :
  openable w path = true →
  let h := fresh (dom (handles w)) in
  let w' := exec (readBmpHeader residue path) w in
  handles w !! h = None
  ∧ (∃ got, trace w' = trace w ++ [EvOpen path (Some h);
                                   EvRead h sizeof_header got; EvClose h])
  ∧ handles w' !! h = None
  ∧ handles w' = handles w.
Proof.
  intros Hopen h w'. unfold openable in Hopen.
  destruct (fs w !! path) as [f|] eqn:Hf; [|done].
  assert (handles w !! h = None) as Hfresh
    by apply not_elem_of_dom, is_fresh.
  subst w'. unfold exec. rewrite (readBmpHeader_opened _ _ _ f Hf Hopen).
  cbv zeta. fold h.
  destruct (bool_decide _); unfold after_run; cbn [snd handles trace];
    (split_and!; [done | by eexists | done | done]).
Qed.

Lemma readBmpHeader_releases_handle_witness :
  handles (exec (readBmpHeader residue_zero "short.bmp") sample_world) = ∅
  ∧ trace (exec (readBmpHeader residue_zero "short.bmp") sample_world)
    = [EvOpen "short.bmp" (Some 0%nat); EvRead 0 14 3; EvClose 0].
Proof.
  destruct (readBmpHeader_releases_handle residue_zero "short.bmp"
              sample_world)
    as (_ & _ & _ & Hh); [reflexivity | ].
  split; [exact Hh | reflexivity].
Defined.

(** C10. Two files that open, hold at least 14 bytes and agree on bytes
    0-1, 2-5 and 10-13 make [readBmpHeader] write the same text on both
    streams: bytes 6-9, the bytes after the thirteenth and the former
    content of the header storage have no influence. *)
Theorem readBmpHeader_ignores_other_bytes r1 r2 p1 p2 w1 w2 f1 f2 :
  fs w1 !! p1 = Some f1 → readable f1 = true →
  fs w2 !! p2 = Some f2 → readable f2 = true →
  (sizeof_header ≤ length (content f1))%nat →
  (sizeof_header ≤ length (content f2))%nat →
  (∀ i : nat, i ∈ [0; 1; 2; 3; 4; 5; 10; 11; 12; 13]%nat →
              content f1 !! i = content f2 !! i) →
  cout w1 = cout w2 → cerr w1 = cerr w2 →
  cout (exec (readBmpHeader r1 p1) w1) = cout (exec (readBmpHeader r2 p2) w2)
  ∧ cerr (exec (readBmpHeader r1 p1) w1)
    = cerr (exec (readBmpHeader r2 p2) w2).
Proof.
  intros Hf1 Hr1 Hf2 Hr2 Hl1 Hl2 Hagree Hout Herr.
  destruct (readBmpHeader_summary r1 p1 w1) as (_ & _ & -> & ->).
  destruct (readBmpHeader_summary r2 p2 w2) as (_ & _ & -> & ->).
  rewrite Hf1, Hf2, Hout, Herr.
  assert (response r1 p1 (Some f1) = response r2 p2 (Some f2)) as ->;
    [|done].
  unfold response. rewrite Hr1, Hr2.
  destruct f1 as [rd1 c1], f2 as [rd2 c2]. cbn [content] in *.
  change sizeof_header with 14%nat in Hl1, Hl2.
  do 14 (destruct c1 as [|? c1]; [simpl in Hl1; lia|]).
  do 14 (destruct c2 as [|? c2]; [simpl in Hl2; lia|]).
  pose proof (Hagree 0%nat ltac:(set_solver)) as A0.
  pose proof (Hagree 1%nat ltac:(set_solver)) as A1.
  pose proof (Hagree 2%nat ltac:(set_solver)) as A2.
  pose proof (Hagree 3%nat ltac:(set_solver)) as A3.
  pose proof (Hagree 4%nat ltac:(set_solver)) as A4.
  pose proof (Hagree 5%nat ltac:(set_solver)) as A5.
  pose proof (Hagree 10%nat ltac:(set_solver)) as A10.
  pose proof (Hagree 11%nat ltac:(set_solver)) as A11.
  pose proof (Hagree 12%nat ltac:(set_solver)) as A12.
  pose proof (Hagree 13%nat ltac:(set_solver)) as A13.
  cbn in A0, A1, A2, A3, A4, A5, A10, A11, A12, A13. simplify_eq.
  pose proof (header_of_full_file r1) as H1.
  pose proof (header_of_full_file r2) as H2.
  cbn [app] in H1, H2. rewrite H1, H2. reflexivity.
Qed.

Lemma readBmpHeader_ignores_other_bytes_witness :
  let w2 :=
    {| fs := {[ "copy.bmp"%string :=
                  mkFile true
                    [x42; x4d; x46; x00; x00; x00; x01; x02; x03; x04; x36;
                     x00; x00; x00; x99] ]};
       handles := ∅; cout := ""; cerr := ""; trace := [] |} in
  cout (exec (readBmpHeader residue_zero "ok.bmp") sample_world)
  = cout (exec (readBmpHeader residue_bmp "copy.bmp") w2).
Proof.
  intros w2.
  refine (proj1 (readBmpHeader_ignores_other_bytes residue_zero residue_bmp
           "ok.bmp" "copy.bmp" sample_world w2
           (mkFile true (sample_header ++ [xff; xff]))
           (mkFile true
              [x42; x4d; x46; x00; x00; x00; x01; x02; x03; x04; x36;
               x00; x00; x00; x99])
           _ _ _ _ _ _ _ _ _));
    try reflexivity; try (vm_compute; lia).
  intros i Hi.
  repeat (apply elem_of_cons in Hi as [->|Hi]; [reflexivity|]).
  by apply elem_of_nil in Hi.
Defined.

(** ** Short files: the read is never checked *)

(** After the read of an empty file the header storage is the stack
    residue, byte for byte. *)
Lemma header_storage_empty residue :
  header_storage residue [] = uninitialised residue sizeof_header.
Proof. reflexivity. Qed.

(** Where the response cannot depend on the residue, two runs in a row
    write the same text: a path that does not open, or a file with a full
    header. *)
Lemma readBmpHeader_twice_same_output r1 r2 path w :
  (openable w path = false
   ∨ ∃ f, fs w !! path = Some f ∧ (sizeof_header ≤ length (content f))%nat) →
  same_output w (exec (readBmpHeader r1 path) w)
    (exec (readBmpHeader r2 path) (exec (readBmpHeader r1 path) w)).
Proof.
  intros Hcase. apply same_output_of_response.
  destruct Hcase as [Hno | (f & Hf & Hlen)].
  - by apply response_not_openable.
  - rewrite Hf. by apply response_full_header.
Qed.

(** C4. The claim fails on an empty file that opens.  The read stores no
    byte (the log shows [EvRead 0 14 0]), the storage of [header] is the
    stack residue, and the code goes on to test and print it: over the
    bytes of an earlier valid header it reports a size of 70 and an offset
    of 54 for a file of zero bytes, over zeroes it reports an invalid
    signature.  On the three-byte file [42 4D 46] the printed offset is
    whatever the stack held. *)
Theorem readBmpHeader_short_file_uses_residue :
  let run r p := exec (readBmpHeader r p) sample_world in
  openable sample_world "empty.bmp" = true
  ∧ fs sample_world !! "empty.bmp"%string = Some (mkFile true [])
  ∧ (∀ r, header_storage r [] = r <$> seq 0 14)
  ∧ trace (run residue_bmp "empty.bmp")
    = [EvOpen "empty.bmp" (Some 0%nat); EvRead 0 14 0; EvClose 0]
  ∧ cout (run residue_bmp "empty.bmp")
    = "File size: 70 bytes" +:+ endl
      +:+ "Header size (offset to pixel data): 54 bytes" +:+ endl
  ∧ cerr (run residue_bmp "empty.bmp") = ""
  ∧ cout (run residue_zero "empty.bmp") = ""
  ∧ cerr (run residue_zero "empty.bmp")
    = "Error: Not a valid BMP file." +:+ endl
  ∧ cout (run residue_zero "short.bmp")
    = "File size: 70 bytes" +:+ endl
      +:+ "Header size (offset to pixel data): 0 bytes" +:+ endl
  ∧ cout (run residue_bmp "short.bmp")
    = "File size: 70 bytes" +:+ endl
      +:+ "Header size (offset to pixel data): 54 bytes" +:+ endl.
Proof.
  cbv zeta. split_and!; try reflexivity.
Qed.

(** C7. The claim fails on an empty file that opens.  Two runs in a row on
    the same unchanged file, the first over a stack that held an earlier
    valid header and the second over a zeroed stack, do not write the same
    text: the first prints two fields, the second a diagnostic. *)
Theorem readBmpHeader_twice_empty_file_differs :
  let w0 := sample_world in
  let w1 := exec (readBmpHeader residue_bmp "empty.bmp") w0 in
  let w2 := exec (readBmpHeader residue_zero "empty.bmp") w1 in
  fs w1 = fs w0 ∧ fs w2 = fs w0
  ∧ cout w1 = "File size: 70 bytes" +:+ endl
              +:+ "Header size (offset to pixel data): 54 bytes" +:+ endl
  ∧ cerr w1 = ""
  ∧ cout w2 = cout w1
  ∧ cerr w2 = "Error: Not a valid BMP file." +:+ endl
  ∧ ¬ same_output w0 w1 w2.
Proof.
  cbv zeta.
  set (w1 := exec (readBmpHeader residue_bmp "empty.bmp") sample_world).
  set (w2 := exec (readBmpHeader residue_zero "empty.bmp") w1).
  assert (cerr w1 = ""%string) as He1 by reflexivity.
  assert (cerr w2 = "Error: Not a valid BMP file." +:+ endl) as He2
    by reflexivity.
  assert (fs w1 = fs sample_world) as Hfs1
    by apply (readBmpHeader_summary residue_bmp "empty.bmp" sample_world).
  assert (fs w2 = fs w1) as Hfs2
    by apply (readBmpHeader_summary residue_zero "empty.bmp" w1).
  split_and!; [done | congruence | reflexivity | done | reflexivity | done | ].
  intros (out & err & _ & E1 & _ & E2).
  rewrite He1 in E1. rewrite He1, He2 in E2.
  change (cerr sample_world) with ""%string in E1.
  change ("" +:+ err) with err in E1, E2. by rewrite <- E1 in E2.
Qed.

(** * Further properties of the struct layout and of the two functions *)

(** ** The packed layout (source lines 8-14) *)

Lemma byte_val_inj (b c : byte) : byte_val b = byte_val c → b = c.
Proof.
  unfold byte_val. intros E%N2Z.inj.
  apply (inj Some). by rewrite <- !Byte.of_to_N, E.
Qed.

Lemma load_le_cons (b : byte) (bs : list byte) :
  load_le (b :: bs) = byte_val b + 2 ^ 8 * load_le bs.
Proof. cbn [load_le]. apply lor_shiftl_8, byte_val_range. Qed.

(** A little-endian load of [n] bytes fits in [8 * n] bits. *)
Lemma load_le_bound (bs : list byte) :
  0 ≤ load_le bs < 2 ^ (8 * Z.of_nat (length bs)).
Proof.
  induction bs as [|b bs IH].
  - cbn. lia.
  - rewrite load_le_cons. cbn [length].
    replace (8 * Z.of_nat (S (length bs))) with (8 + 8 * Z.of_nat (length bs))
      by lia.
    rewrite Z.pow_add_r by lia.
    pose proof (byte_val_range b) as Rb.
    change (2 ^ 8) with 256 in *. nia.
Qed.

(** Loads of equally many bytes are equal only for equal bytes. *)
Lemma load_le_inj (bs cs : list byte) :
  length bs = length cs → load_le bs = load_le cs → bs = cs.
Proof.
  revert cs. induction bs as [|b bs IH]; intros [|c cs] Hlen E;
    try done.
  rewrite !load_le_cons in E.
  pose proof (byte_val_range b) as Rb. pose proof (byte_val_range c) as Rc.
  change (2 ^ 8) with 256 in *.
  assert (byte_val b = byte_val c ∧ load_le bs = load_le cs) as [Eb Er]
    by lia.
  f_equal; [by apply byte_val_inj | apply IH; [by simplify_eq/= | done]].
Qed.

Lemma slice_length_le (off width : nat) (mem : list byte) :
  (length (slice off width mem) ≤ width)%nat.
Proof. unfold slice. rewrite length_take. lia. Qed.

Lemma load_slice_bound (off width : nat) (mem : list byte) :
  0 ≤ load_le (slice off width mem) < 2 ^ (8 * Z.of_nat width).
Proof.
  pose proof (load_le_bound (slice off width mem)) as [Hlo Hhi].
  pose proof (slice_length_le off width mem) as Hlen.
  split; [done|].
  eapply Z.lt_le_trans; [exact Hhi|].
  apply Z.pow_le_mono_r; lia.
Qed.

Lemma header_of_bytes_range (mem : list byte) :
  let hd := header_of_bytes mem in
  0 ≤ bfType hd < 2 ^ 16
  ∧ 0 ≤ bfSize hd < 2 ^ 32
  ∧ 0 ≤ bfReserved1 hd < 2 ^ 16
  ∧ 0 ≤ bfReserved2 hd < 2 ^ 16
  ∧ 0 ≤ bfOffBits hd < 2 ^ 32.
Proof.
  cbv zeta. unfold header_of_bytes.
  cbn [bfType bfSize bfReserved1 bfReserved2 bfOffBits].
  split_and!;
    first [ apply (load_slice_bound _ sizeof_uint16)
          | apply (load_slice_bound _ sizeof_uint32) ].
Qed.

(** X1. Whatever bytes the storage holds, and even when fewer than 14 are
    there, every field of the struct is within the range of its C type:
    the 16-bit fields below 2^16, the 32-bit fields below 2^32.  So the
    values compared and printed never need a wrap-around. *)
Theorem header_fields_in_range (mem : list byte) :
  let hd := header_of_bytes mem in
  0 ≤ bfType hd < 2 ^ 16
  ∧ 0 ≤ bfSize hd < 2 ^ 32
  ∧ 0 ≤ bfReserved1 hd < 2 ^ 16
  ∧ 0 ≤ bfReserved2 hd < 2 ^ 16
  ∧ 0 ≤ bfOffBits hd < 2 ^ 32.
Proof. exact (header_of_bytes_range mem). Qed.

(** X2. The packed layout leaves no byte of the 14 outside a field and
    gives no byte to two fields: two 14-byte storages that denote the same
    five field values are the same bytes. *)
Theorem header_of_bytes_inj (m1 m2 : list byte) :
  length m1 = sizeof_header → length m2 = sizeof_header →
  header_of_bytes m1 = header_of_bytes m2 → m1 = m2.
Proof.
  change sizeof_header with 14%nat. intros L1 L2 E.
  destruct m1 as
    [|a0 [|a1 [|a2 [|a3 [|a4 [|a5 [|a6 [|a7 [|a8 [|a9 [|a10 [|a11 [|a12
    [|a13 [|? ?]]]]]]]]]]]]]]];
    try done.
  destruct m2 as
    [|c0 [|c1 [|c2 [|c3 [|c4 [|c5 [|c6 [|c7 [|c8 [|c9 [|c10 [|c11 [|c12
    [|c13 [|? ?]]]]]]]]]]]]]]];
    try done.
  clear L1 L2.
  assert (load_le [a0; a1] = load_le [c0; c1]) as E1
    by exact (f_equal bfType E).
  assert (load_le [a2; a3; a4; a5] = load_le [c2; c3; c4; c5]) as E2
    by exact (f_equal bfSize E).
  assert (load_le [a6; a7] = load_le [c6; c7]) as E3
    by exact (f_equal bfReserved1 E).
  assert (load_le [a8; a9] = load_le [c8; c9]) as E4
    by exact (f_equal bfReserved2 E).
  assert (load_le [a10; a11; a12; a13] = load_le [c10; c11; c12; c13]) as E5
    by exact (f_equal bfOffBits E).
  apply load_le_inj in E1, E2, E3, E4, E5; try reflexivity.
  by simplify_eq.
Qed.

Lemma header_of_bytes_inj_witness :
  sample_header
  = [x42; x4d; x46; x00; x00; x00; x00; x00; x00; x00; x36; x00; x00; x00].
Proof.
  apply (header_of_bytes_inj sample_header
           [x42; x4d; x46; x00; x00; x00; x00; x00; x00; x00; x36; x00; x00;
            x00]); reflexivity.
Defined.

(** ** [readBmpHeader] on files of any length (source lines 16-37) *)

Lemma header_storage_length residue (c : list byte) :
  length (header_storage residue c) = sizeof_header.
Proof.
  unfold header_storage, uninitialised.
  rewrite length_app, length_drop, length_fmap, length_seq, length_take.
  lia.
Qed.

Lemma header_storage_idemp r r' (c : list byte) :
  header_storage r' (header_storage r c) = header_storage r c.
Proof.
  rewrite (header_storage_full r') by (by rewrite header_storage_length).
  apply firstn_all2. by rewrite header_storage_length.
Qed.

Lemma append_eq_self (s t : string) : s +:+ t = s → t = ""%string.
Proof.
  intros E. apply (inj (String.append s)). by rewrite append_nil_r.
Qed.

(** With two bytes in the file the branch is chosen by those two bytes. *)
Lemma readBmpHeader_two_bytes residue path w f b0 b1 rest :
  fs w !! path = Some f →
  readable f = true →
  content f = b0 :: b1 :: rest →
  exec (readBmpHeader residue path) w =
    let hd := header_of_bytes (header_storage residue (content f)) in
    let got := length (take sizeof_header (content f)) in
    if bool_decide (le_uint16 b0 b1 = 0x4D42)
    then after_run w path got (report hd) ""
    else after_run w path got "" msg_invalid.
Proof.
  intros Hf Hr Hc. unfold exec.
  rewrite (readBmpHeader_opened _ _ _ f Hf Hr). cbv zeta. cbn [snd].
  assert (bfType (header_of_bytes (header_storage residue (content f)))
          = le_uint16 b0 b1) as ->
    by (rewrite Hc; apply bfType_of_two_bytes).
  destruct (decide (le_uint16 b0 b1 = 19778)) as [Hsig|Hsig].
  - rewrite (bool_decide_eq_true_2 _ Hsig).
    by rewrite bool_decide_eq_false_2 by (intros Hne; by apply Hne).
  - rewrite (bool_decide_eq_false_2 _ Hsig).
    by rewrite bool_decide_eq_true_2 by done.
Qed.

(** X3. For a file that opens and holds at least two bytes, of whatever
    length, the signature test is a test of those two bytes: when they are
    'B' and 'M' the run writes no diagnostic and prints the two lines for
    the fields found in the header storage, also when the file stops short
    of 14 bytes; otherwise it writes the invalid-file diagnostic and
    prints nothing. *)
Theorem readBmpHeader_accepts_exactly_BM residue path w f b0 b1 rest :
  fs w !! path = Some f →
  readable f = true →
  content f = b0 :: b1 :: rest →
  let w' := exec (readBmpHeader residue path) w in
  let hd := header_of_bytes (header_storage residue (content f)) in
  (b0 = x42 ∧ b1 = x4d →
     cerr w' = cerr w
     ∧ cout w' =
         cout w +:+ "File size: " +:+ show_uint (bfSize hd) +:+ " bytes"
         +:+ endl +:+ "Header size (offset to pixel data): "
         +:+ show_uint (bfOffBits hd) +:+ " bytes" +:+ endl)
  ∧ (¬ (b0 = x42 ∧ b1 = x4d) →
     cerr w' = cerr w +:+ "Error: Not a valid BMP file." +:+ endl
     ∧ cout w' = cout w).
Proof.
  intros Hf Hr Hc w' hd.
  subst w'. rewrite (readBmpHeader_two_bytes _ _ _ f b0 b1 rest Hf Hr Hc).
  cbv zeta. fold hd. split; intros Hsig.
  - rewrite (bool_decide_eq_true_2 _ (proj2 (le_uint16_magic b0 b1) Hsig)).
    unfold after_run, report, line_file_size, line_header_size.
    cbn [cout cerr]. split; [apply append_nil_r|].
    by rewrite !append_assoc.
  - rewrite bool_decide_eq_false_2
      by (intros Heq; apply Hsig; by apply le_uint16_magic).
    unfold after_run. cbn [cout cerr].
    split; [reflexivity | apply append_nil_r].
Qed.

Lemma readBmpHeader_accepts_exactly_BM_witness :
  cerr (exec (readBmpHeader residue_zero "cut.bmp") truncated_world) = ""
  ∧ cout (exec (readBmpHeader residue_zero "cut.bmp") truncated_world)
    = "log: File size: 666 bytes" +:+ endl
      +:+ "Header size (offset to pixel data): 0 bytes" +:+ endl.
Proof.
  destruct (readBmpHeader_accepts_exactly_BM residue_zero "cut.bmp"
              truncated_world
              (mkFile true [x42; x4d; x9a; x02; x00; x00; x00; x00; x00])
              x42 x4d [x9a; x02; x00; x00; x00; x00; x00])
    as [Hyes _]; [reflexivity | reflexivity | reflexivity | ].
  exact (Hyes (conj eq_refl eq_refl)).
Defined.

(** X4. A file cut anywhere after its sixth byte and starting with 'B'
    'M' is not detected as truncated: no diagnostic is written, the first
    line carries the little-endian reading of file bytes 2-5 whatever the
    stack held, and the second line carries some 32-bit value. *)
Theorem readBmpHeader_truncated_file_size residue path w f b0 b1 b2 b3 b4 b5
    rest :
  fs w !! path = Some f →
  readable f = true →
  content f = b0 :: b1 :: b2 :: b3 :: b4 :: b5 :: rest →
  le_uint16 b0 b1 = 0x4D42 →
  let w' := exec (readBmpHeader residue path) w in
  cerr w' = cerr w
  ∧ ∃ off, 0 ≤ off < 2 ^ 32
    ∧ cout w' =
        cout w +:+ "File size: " +:+ show_uint (le_uint32 b2 b3 b4 b5)
        +:+ " bytes" +:+ endl +:+ "Header size (offset to pixel data): "
        +:+ show_uint off +:+ " bytes" +:+ endl.
Proof.
  intros Hf Hr Hc Hsig w'.
  subst w'.
  rewrite (readBmpHeader_two_bytes _ _ _ f b0 b1
             (b2 :: b3 :: b4 :: b5 :: rest) Hf Hr Hc).
  cbv zeta.
  rewrite (bool_decide_eq_true_2 _ Hsig).
  unfold after_run, report, line_file_size, line_header_size.
  cbn [cout cerr]. split; [apply append_nil_r|].
  exists (bfOffBits (header_of_bytes (header_storage residue (content f)))).
  split; [apply header_of_bytes_range|].
  rewrite !append_assoc. do 3 f_equal.
  rewrite Hc, <- load_le_4. reflexivity.
Qed.

Lemma readBmpHeader_truncated_file_size_witness :
  cerr (exec (readBmpHeader residue_bmp "cut.bmp") truncated_world) = ""
  ∧ ∃ off, 0 ≤ off < 2 ^ 32
    ∧ cout (exec (readBmpHeader residue_bmp "cut.bmp") truncated_world)
      = "log: " +:+ "File size: " +:+ show_uint 666 +:+ " bytes" +:+ endl
        +:+ "Header size (offset to pixel data): " +:+ show_uint off
        +:+ " bytes" +:+ endl.
Proof.
  apply (readBmpHeader_truncated_file_size residue_bmp "cut.bmp"
           truncated_world
           (mkFile true [x42; x4d; x9a; x02; x00; x00; x00; x00; x00])
           x42 x4d x9a x02 x00 x00 [x00; x00; x00]); reflexivity.
Defined.

(** X5. A short read behaves as a full read of a padded file: a run on
    any file that opens writes exactly what a run would write on the
    14-byte file made of the bytes the read delivered followed by the bytes
    the stack held at the remaining offsets; the stack of that second run
    has no influence. *)
Theorem readBmpHeader_short_read_as_padded r r' path path' w w' f :
  fs w !! path = Some f →
  readable f = true →
  fs w' !! path' = Some (mkFile true (header_storage r (content f))) →
  cout w = cout w' →
  cerr w = cerr w' →
  cout (exec (readBmpHeader r path) w)
  = cout (exec (readBmpHeader r' path') w')
  ∧ cerr (exec (readBmpHeader r path) w)
    = cerr (exec (readBmpHeader r' path') w').
Proof.
  intros Hf Hr Hf' Hout Herr.
  destruct (readBmpHeader_summary r path w) as (_ & _ & -> & ->).
  destruct (readBmpHeader_summary r' path' w') as (_ & _ & -> & ->).
  rewrite Hf, Hf', Hout, Herr. unfold response.
  rewrite Hr. cbn [readable content]. by rewrite header_storage_idemp.
Qed.

Lemma readBmpHeader_short_read_as_padded_witness :
  let padded :=
    {| fs := {[ "padded.bmp"%string :=
                  mkFile true (header_storage residue_bmp [x42]) ]};
       handles := ∅; cout := "log: "; cerr := ""; trace := [] |} in
  cout (exec (readBmpHeader residue_bmp "one.bin") truncated_world)
  = cout (exec (readBmpHeader residue_zero "padded.bmp") padded).
Proof.
  intros padded.
  refine (proj1 (readBmpHeader_short_read_as_padded residue_bmp residue_zero
                   "one.bin" "padded.bmp" truncated_world padded
                   (mkFile true [x42]) _ _ _ _ _)); reflexivity.
Defined.

(** X6. Every run writes on exactly one of the two streams and only
    appends to it: either the output stream is left as it was and the error
    stream gains one non-empty diagnostic ended by a newline, or the error
    stream is left as it was and the output stream gains two
    newline-terminated lines. *)
Theorem readBmpHeader_writes_one_stream residue path w :
  let w' := exec (readBmpHeader residue path) w in
  (cout w' = cout w
   ∧ ∃ msg, msg ≠ ""%string ∧ cerr w' = cerr w +:+ msg +:+ endl)
  ∨ (cerr w' = cerr w
     ∧ ∃ l1 l2, count_newlines l1 = 0%nat ∧ count_newlines l2 = 0%nat
       ∧ cout w' = cout w +:+ l1 +:+ endl +:+ l2 +:+ endl).
Proof.
  cbv zeta.
  destruct (readBmpHeader_summary residue path w) as (_ & _ & -> & ->).
  assert (∀ s, s +:+ "" = s) as Hnil by apply append_nil_r.
  unfold response.
  destruct (fs w !! path) as [f|]; [destruct (readable f)|].
  - destruct (bool_decide _); cbn [fst snd].
    + left. rewrite Hnil. split; [done|].
      by exists "Error: Not a valid BMP file."%string.
    + right. rewrite Hnil. split; [done|].
      eexists _, _. split_and!; [| |reflexivity];
        unfold line_file_size, line_header_size;
        by rewrite !count_newlines_append, count_newlines_show_uint.
  - left. cbn [fst snd]. rewrite Hnil. split; [done|].
    exists ("Error: Could not open file " +:+ path). split; [done|].
    unfold msg_open_failed. by rewrite !append_assoc.
  - left. cbn [fst snd]. rewrite Hnil. split; [done|].
    exists ("Error: Could not open file " +:+ path). split; [done|].
    unfold msg_open_failed. by rewrite !append_assoc.
Qed.

(** X7. A run that opens the file asks once for 14 bytes and gets the
    smaller of 14 and the file's length: it never consumes more than the
    header, and a file shorter than the header is read to its end. *)
Theorem readBmpHeader_reads_header_only residue path w f :
  fs w !! path = Some f →
  readable f = true →
  let h := fresh (dom (handles w)) in
  trace (exec (readBmpHeader residue path) w)
  = trace w ++ [EvOpen path (Some h);
                EvRead h 14 (14 `min` length (content f)); EvClose h].
Proof.
  intros Hf Hr h. unfold exec.
  rewrite (readBmpHeader_opened _ _ _ f Hf Hr). cbv zeta.
  destruct (bool_decide _); unfold after_run; cbn [snd trace]; fold h;
    by rewrite length_take.
Qed.

Lemma readBmpHeader_reads_header_only_witness :
  trace (exec (readBmpHeader residue_zero "cut.bmp") truncated_world)
  = [EvOpen "cut.bmp" (Some 1%nat); EvRead 1 14 9; EvClose 1]
  ∧ trace (exec (readBmpHeader residue_zero "ok.bmp") sample_world)
    = [EvOpen "ok.bmp" (Some 0%nat); EvRead 0 14 14; EvClose 0].
Proof.
  split.
  - apply (readBmpHeader_reads_header_only residue_zero "cut.bmp"
             truncated_world
             (mkFile true [x42; x4d; x9a; x02; x00; x00; x00; x00; x00]));
      reflexivity.
  - apply (readBmpHeader_reads_header_only residue_zero "ok.bmp"
             sample_world (mkFile true (sample_header ++ [xff; xff])));
      reflexivity.
Defined.


(** ** [main] (source lines 39-44) *)

Lemma main_runs_readBmpHeader residue w :
  main residue w = (0, exec (readBmpHeader residue main_path) w).
Proof.
  unfold exec, main, main_path, mbind, io_bind, mret, io_ret.
  by destruct (readBmpHeader residue _ w).
Qed.

(** X9. The program looks at one directory entry only: two worlds that
    agree on the entry of the compiled-in path make [main] write the same
    text and return the same status, whatever else their file systems
    hold; and [main] leaves the file system and the table of open handles
    as it found them. *)
Theorem main_reads_compiled_path_only residue w1 w2 :
  fs w1 !! main_path = fs w2 !! main_path →
  cout w1 = cout w2 →
  cerr w1 = cerr w2 →
  cout (exec (main residue) w1) = cout (exec (main residue) w2)
  ∧ cerr (exec (main residue) w1) = cerr (exec (main residue) w2)
  ∧ eval (main residue) w1 = eval (main residue) w2
  ∧ fs (exec (main residue) w1) = fs w1
  ∧ handles (exec (main residue) w1) = handles w1.
Proof.
  intros Hentry Hout Herr. unfold exec at 1 2 3 4 5 6, eval.
  rewrite !main_runs_readBmpHeader. cbn [fst snd].
  destruct (readBmpHeader_summary residue main_path w1)
    as (Hfs & Hh & -> & ->).
  destruct (readBmpHeader_summary residue main_path w2) as (_ & _ & -> & ->).
  by rewrite Hentry, Hout, Herr.
Qed.

Lemma main_reads_compiled_path_only_witness :
  cout (exec (main residue_bmp) sample_world)
  = cout (exec (main residue_bmp)
            {| fs := ∅; handles := ∅; cout := ""; cerr := ""; trace := [] |})
  ∧ cerr (exec (main residue_bmp) sample_world)
    = cerr (exec (main residue_bmp)
              {| fs := ∅; handles := ∅; cout := ""; cerr := "";
                 trace := [] |}).
Proof.
  destruct (main_reads_compiled_path_only residue_bmp sample_world
              {| fs := ∅; handles := ∅; cout := ""; cerr := "";
                 trace := [] |})
    as (Hout & Herr & _); [reflexivity | reflexivity | reflexivity | ].
  split; [exact Hout | exact Herr].
Defined.

(** X10. Started where the relative path does not lead to a readable
    file, the program writes the open diagnostic with that very path on
    the error stream, nothing on the output stream, attempts no read, and
    still returns status zero. *)
Theorem main_without_sample_image residue w :
  openable w "../../../data/images/test_10x10.bmp" = false →
  eval (main residue) w = 0
  ∧ cerr (exec (main residue) w)
    = cerr w
      +:+ "Error: Could not open file ../../../data/images/test_10x10.bmp"
      +:+ endl
  ∧ cout (exec (main residue) w) = cout w
  ∧ trace (exec (main residue) w)
    = trace w ++ [EvOpen "../../../data/images/test_10x10.bmp" None].
Proof.
  intros Hopen. unfold exec at 1 2 3, eval.
  rewrite main_runs_readBmpHeader. cbn [fst snd]. unfold exec, main_path.
  rewrite (readBmpHeader_not_openable _ _ _ Hopen).
  cbn [snd cerr cout trace]. split_and!; reflexivity.
Qed.

Lemma main_without_sample_image_witness :
  eval (main residue_bmp) sample_world = 0
  ∧ cerr (exec (main residue_bmp) sample_world)
    = "Error: Could not open file ../../../data/images/test_10x10.bmp"
      +:+ endl.
Proof.
  destruct (main_without_sample_image residue_bmp sample_world)
    as (Hst & Herr & _); [reflexivity | ].
  split; [exact Hst | exact Herr].
Defined.

(** ** The printed report can be read back (source lines 33-34) *)

Lemma all_digits_string_of_uint d :
  all_digits (NilEmpty.string_of_uint d) = true.
Proof. induction d; simpl; auto. Qed.

(** A run of digits followed by a space ends where the space is. *)
Lemma digits_then_space_inj (s s' t t' : string) :
  all_digits s = true → all_digits s' = true →
  s +:+ String " " t = s' +:+ String " " t' → s = s' ∧ t = t'.
Proof.
  revert s'. induction s as [|a s IH]; intros [|a' s'] Hs Hs' E.
  - change (String " " t = String " " t') in E. by simplify_eq.
  - change (String " " t = String a' (s' +:+ String " " t')) in E.
    first [by simplify_eq | simplify_eq; by cbn in Hs'].
  - change (String a (s +:+ String " " t) = String " " t') in E.
    first [by simplify_eq | simplify_eq; by cbn in Hs].
  - change (String a (s +:+ String " " t)
            = String a' (s' +:+ String " " t')) in E.
    injection E as -> E.
    cbn [all_digits] in Hs, Hs'.
    apply andb_prop in Hs as [_ Hs]. apply andb_prop in Hs' as [_ Hs'].
    destruct (IH s' Hs Hs' E) as [-> ->]. done.
Qed.

Lemma show_uint_digits (z : Z) :
  show_uint z = NilEmpty.string_of_uint (N.to_uint (Z.to_N z)).
Proof.
  unfold show_uint, NilZero.string_of_uint.
  destruct (N.to_uint (Z.to_N z)) eqn:E; try reflexivity.
  destruct (Z.to_N z); [discriminate|].
  by apply DecimalPos.Unsigned.to_uint_nonnil in E.
Qed.

(** The decimal text of a non-negative value, up to the space after it,
    tells the value. *)
Lemma show_uint_then_space_inj (z z' : Z) (t t' : string) :
  0 ≤ z → 0 ≤ z' →
  show_uint z +:+ String " " t = show_uint z' +:+ String " " t' →
  z = z' ∧ t = t'.
Proof.
  intros Hz Hz' E. rewrite !show_uint_digits in E.
  apply digits_then_space_inj in E as [Ed Et];
    [|apply all_digits_string_of_uint..].
  split; [|done].
  apply (f_equal NilEmpty.uint_of_string) in Ed.
  rewrite !NilEmpty.usu in Ed.
  injection Ed as Ed. apply DecimalN.Unsigned.to_uint_inj in Ed.
  by apply Z2N.inj.
Qed.

Lemma report_inj (h1 h2 : BitmapFileHeader) :
  0 ≤ bfSize h1 → 0 ≤ bfSize h2 → 0 ≤ bfOffBits h1 → 0 ≤ bfOffBits h2 →
  report h1 = report h2 →
  bfSize h1 = bfSize h2 ∧ bfOffBits h1 = bfOffBits h2.
Proof.
  intros Hs1 Hs2 Ho1 Ho2 E.
  unfold report, line_file_size, line_header_size in E.
  rewrite !append_assoc in E.
  apply (inj (String.append "File size: ")) in E.
  apply (show_uint_then_space_inj _ _
           ("bytes" +:+ endl +:+ "Header size (offset to pixel data): "
            +:+ show_uint (bfOffBits h1) +:+ " bytes" +:+ endl)
           ("bytes" +:+ endl +:+ "Header size (offset to pixel data): "
            +:+ show_uint (bfOffBits h2) +:+ " bytes" +:+ endl))
    in E as [Esize E]; [|done..].
  split; [done|].
  apply (inj (String.append "bytes")) in E.
  apply (inj (String.append endl)) in E.
  apply (inj (String.append "Header size (offset to pixel data): ")) in E.
  by apply (show_uint_then_space_inj _ _ ("bytes" +:+ endl)
              ("bytes" +:+ endl)) in E as [Eoff _].
Qed.

(** X11. The report loses nothing: when two files that open, hold at
    least 14 bytes and carry the signature make [readBmpHeader] write the
    same text after the same earlier output, their bytes 2-5 are equal and
    their bytes 10-13 are equal. *)
Theorem readBmpHeader_report_determines_fields r1 r2 p1 p2 w1 w2 f1 f2 :
  fs w1 !! p1 = Some f1 → readable f1 = true →
  fs w2 !! p2 = Some f2 → readable f2 = true →
  (sizeof_header ≤ length (content f1))%nat →
  (sizeof_header ≤ length (content f2))%nat →
  bfType (header_of_bytes (take sizeof_header (content f1))) = 0x4D42 →
  bfType (header_of_bytes (take sizeof_header (content f2))) = 0x4D42 →
  cout w1 = cout w2 →
  cout (exec (readBmpHeader r1 p1) w1) = cout (exec (readBmpHeader r2 p2) w2) →
  slice off_bfSize sizeof_uint32 (content f1)
  = slice off_bfSize sizeof_uint32 (content f2)
  ∧ slice off_bfOffBits sizeof_uint32 (content f1)
    = slice off_bfOffBits sizeof_uint32 (content f2).
Proof.
  intros Hf1 Hr1 Hf2 Hr2 Hl1 Hl2 Hs1 Hs2 Hout E.
  destruct (readBmpHeader_summary r1 p1 w1) as (_ & _ & Ho1 & _).
  destruct (readBmpHeader_summary r2 p2 w2) as (_ & _ & Ho2 & _).
  rewrite Ho1, Ho2, Hf1, Hf2, Hout in E. clear Ho1 Ho2.
  apply (inj (String.append (cout w2))) in E.
  unfold response in E. rewrite Hr1, Hr2 in E. cbv zeta in E.
  rewrite !header_storage_full in E by done.
  rewrite !bool_decide_eq_false_2 in E by (intros Hne; by apply Hne).
  cbn [fst] in E.
  apply report_inj in E as [Esize Eoff];
    try apply header_of_bytes_range.
  destruct f1 as [rd1 c1], f2 as [rd2 c2]. cbn [content] in *.
  change sizeof_header with 14%nat in Hl1, Hl2.
  do 14 (destruct c1 as [|? c1]; [simpl in Hl1; lia|]).
  do 14 (destruct c2 as [|? c2]; [simpl in Hl2; lia|]).
  apply load_le_inj in Esize; [|reflexivity].
  apply load_le_inj in Eoff; [|reflexivity].
  split; [exact Esize | exact Eoff].
Qed.

Lemma readBmpHeader_report_determines_fields_witness :
  slice off_bfSize sizeof_uint32 (sample_header ++ [xff; xff])
  = slice off_bfSize sizeof_uint32 sample_header.
Proof.
  refine (proj1 (readBmpHeader_report_determines_fields
            residue_zero residue_bmp "ok.bmp" "copy.bmp" sample_world
            {| fs := {[ "copy.bmp"%string := mkFile true sample_header ]};
               handles := ∅; cout := ""; cerr := ""; trace := [] |}
            (mkFile true (sample_header ++ [xff; xff]))
            (mkFile true sample_header) _ _ _ _ _ _ _ _ _ _));
    try reflexivity; vm_compute; lia.
Defined.
